(** * Near-Earth comets explorer: the orbital derivation pipeline of [gg.py]

    The script [gg.py] loads a table of comets, keeps the rows whose
    eccentricity lies in a range chosen by the user, and adds derived columns
    (discovery date and year, semi-major axis, Tisserand parameter, family,
    estimated size, orbital energy); for selected comets it samples the orbit
    in space.  This file embeds those computations and settles the
    statements of the specification about them.

    Numbers.  Every numeric cell of the table is a NumPy [float64].  A cell is
    modelled by its special-value class: not-a-number, the two infinities, or
    a finite value carried as a real number.  Operations follow the IEEE 754
    rules NumPy applies to special values (a missing operand gives NaN,
    [x / 0] is an infinity, [0 / 0] and [inf - inf] and [0 * inf] and the
    square root of a negative number are NaN, every comparison with NaN is
    false).  On finite values the operations are the exact real ones:
    rounding, overflow and underflow of the 64-bit format are not modelled.
    Zero carries no sign: a non-zero number divided by zero is the infinity
    of the sign of the number, which is what IEEE gives for the divisor
    [+0.0], the zero that [1 - e] is at [e = 1].

    Tables.  A [DataFrame] is its set of column names and the list of its
    rows, each row the dictionary of its cells.  The script holds its tables
    by reference and assigns columns in place, so its statements run on a
    store of tables and may raise.

    pandas.  The parser of [pd.to_numeric], the date arithmetic and the
    calendar are taken as an interface, [Pandas], with the one law the
    script relies on: the date of a missing epoch is NaT. *)

From Stdlib Require Import Reals Lra Lia.
From stdpp Require Import gmap strings list.

#[local] Open Scope R_scope.

(** ** float64 cells *)

Inductive f64 : Type :=
  | NaN
  | PInf
  | NInf
  | Fin (x : R).

Declare Scope f64_scope.
Delimit Scope f64_scope with f64.
Bind Scope f64_scope with f64.

Definition Rltb (x y : R) : bool := if Rlt_dec x y then true else false.
Definition Rleb (x y : R) : bool := if Rle_dec x y then true else false.

Definition fneg (x : f64) : f64 :=
  match x with
  | NaN => NaN
  | PInf => NInf
  | NInf => PInf
  | Fin r => Fin (- r)
  end.

Definition fadd (x y : f64) : f64 :=
  match x, y with
  | NaN, _ | _, NaN => NaN
  | PInf, NInf | NInf, PInf => NaN
  | PInf, _ | _, PInf => PInf
  | NInf, _ | _, NInf => NInf
  | Fin r, Fin s => Fin (r + s)
  end.

Definition fsub (x y : f64) : f64 := fadd x (fneg y).

(** An infinity [i] multiplied by the finite factor [r]. *)
Definition scale_inf (i : f64) (r : R) : f64 :=
  if Req_dec_T r 0 then NaN
  else if Rlt_dec 0 r then i else fneg i.

Definition fmul (x y : f64) : f64 :=
  match x, y with
  | NaN, _ | _, NaN => NaN
  | Fin r, Fin s => Fin (r * s)
  | Fin r, i | i, Fin r => scale_inf i r
  | PInf, PInf | NInf, NInf => PInf
  | PInf, NInf | NInf, PInf => NInf
  end.

Definition fdiv (x y : f64) : f64 :=
  match x, y with
  | NaN, _ | _, NaN => NaN
  | Fin r, Fin s =>
      if Req_dec_T s 0 then
        if Req_dec_T r 0 then NaN
        else if Rlt_dec 0 r then PInf else NInf
      else Fin (r / s)
  | Fin _, _ => Fin 0
  | i, Fin s => if Rlt_dec s 0 then fneg i else i
  | _, _ => NaN
  end.

(** [Series.pow(0.5)]: NumPy evaluates the scalar exponent [0.5] with its
    square-root loop, which gives NaN below zero. *)
Definition fsqrt (x : f64) : f64 :=
  match x with
  | NaN | NInf => NaN
  | PInf => PInf
  | Fin r => if Rlt_dec r 0 then NaN else Fin (sqrt r)
  end.

Definition fcos (x : f64) : f64 :=
  match x with Fin r => Fin (cos r) | _ => NaN end.

Definition fsin (x : f64) : f64 :=
  match x with Fin r => Fin (sin r) | _ => NaN end.

(** [np.radians]: multiplication by [pi / 180]. *)
Definition radians (x : f64) : f64 := fmul x (Fin (PI / 180)).

(** [10 ** x] *)
Definition fpow10 (x : f64) : f64 :=
  match x with
  | NaN => NaN
  | PInf => PInf
  | NInf => Fin 0
  | Fin r => Fin (Rpower 10 r)
  end.

Definition flt (x y : f64) : bool :=
  match x, y with
  | NaN, _ | _, NaN => false
  | _, NInf | PInf, _ => false
  | NInf, _ | _, PInf => true
  | Fin r, Fin s => Rltb r s
  end.

Definition fle (x y : f64) : bool :=
  match x, y with
  | NaN, _ | _, NaN => false
  | NInf, _ | _, PInf => true
  | _, NInf | PInf, _ => false
  | Fin r, Fin s => Rleb r s
  end.

Definition fgt (x y : f64) : bool := flt y x.
Definition fge (x y : f64) : bool := fle y x.

Notation "x + y" := (fadd x y) : f64_scope.
Notation "x - y" := (fsub x y) : f64_scope.
Notation "x * y" := (fmul x y) : f64_scope.
Notation "x / y" := (fdiv x y) : f64_scope.
Notation "- x" := (fneg x) : f64_scope.
Notation "x <? y" := (flt x y) : f64_scope.
Notation "x <=? y" := (fle x y) : f64_scope.
Notation "x >? y" := (fgt x y) : f64_scope.
Notation "x >=? y" := (fge x y) : f64_scope.

(** ** Derived columns (gg.py, lines 117, 118 and 230) *)

(** [df_filtered['a'] = df_filtered['q_au_1'] / (1 - df_filtered['e'])] *)
Definition semi_major_axis (q e : f64) : f64 :=
  (q / (Fin 1 - e))%f64.

(** [df_filtered['Tisserand'] = 3 / a + 2 * ((1 - e**2) * a / 5.2).pow(0.5)
      * np.cos(np.radians(i_deg))] *)
Definition Tisserand (a e i_deg : f64) : f64 :=
  (Fin 3 / a
   + Fin 2 * fsqrt ((Fin 1 - e * e) * a / Fin 5.2) * fcos (radians i_deg))%f64.

(** [lambda t: "Encke-type" if t > 3 else
      ("Jupiter-family" if 2 < t <= 3 else "Halley-type")] *)
Definition classifyFamily (t : f64) : string :=
  if (t >? Fin 3)%f64 then "Encke-type"
  else if ((Fin 2 <? t) && (t <=? Fin 3))%f64 then "Jupiter-family"
  else "Halley-type".

(** ** The orbit in space (gg.py, lines 208 to 222) *)

(** [np.linspace(start, stop, num)] with its default [endpoint=True]: the
    samples [k * step + start] with [step = (stop - start) / (num - 1)],
    after which the last sample is overwritten with [stop]. *)
Definition linspace (start stop : R) (num : nat) : list f64 :=
  let step := (stop - start) / INR (num - 1) in
  let y := (fun k : nat => Fin (INR k * step + start)) <$> seq 0 num in
  if decide (1 < num)%nat then <[(num - 1)%nat := Fin stop]> y else y.

(** [theta = np.linspace(0, 2*np.pi, 1000)] *)
Definition theta : list f64 := linspace 0 (2 * PI) 1000.

Section Orbit.
(** [a = comet_data['a']], [e], [i], [w], [node] of the selected comet. *)
Variables a e i w node : f64.

(** [r = a * (1 - e**2) / (1 + e * np.cos(theta))] *)
Definition orbit_r : list f64 :=
  (fun th => a * (Fin 1 - e * e) / (Fin 1 + e * fcos th))%f64 <$> theta.

(** [x = r * (np.cos(np.radians(node)) * np.cos(theta + np.radians(w))
         - np.sin(np.radians(node)) * np.sin(theta + np.radians(w))
           * np.cos(np.radians(i)))] *)
Definition orbit_x : list f64 :=
  zip_with
    (fun r th =>
       r * (fcos (radians node) * fcos (th + radians w)
            - fsin (radians node) * fsin (th + radians w) * fcos (radians i)))%f64
    orbit_r theta.

(** [y = r * (np.sin(np.radians(node)) * np.cos(theta + np.radians(w))
         + np.cos(np.radians(node)) * np.sin(theta + np.radians(w))
           * np.cos(np.radians(i)))] *)
Definition orbit_y : list f64 :=
  zip_with
    (fun r th =>
       r * (fsin (radians node) * fcos (th + radians w)
            + fcos (radians node) * fsin (th + radians w) * fcos (radians i)))%f64
    orbit_r theta.

(** [z = r * np.sin(theta + np.radians(w)) * np.sin(np.radians(i))] *)
Definition orbit_z : list f64 :=
  zip_with
    (fun r th => r * fsin (th + radians w) * fsin (radians i))%f64
    orbit_r theta.
End Orbit.

(** The points handed to [go.Scatter3d(x=x, y=y, z=z, mode='lines')]. *)
Definition point : Type := f64 * f64 * f64.

Definition orbit_points (a e i w node : f64) : list point :=
  zip_with (fun xy z => (xy.1, xy.2, z))
    (zip (orbit_x a e i w node) (orbit_y a e i w node))
    (orbit_z a e i w).

(** ** Exceptions *)

(** A Python computation either returns a value or raises; an exception is
    recorded by the name of its class. *)
Inductive result (A : Type) : Type :=
  | Ok (x : A)
  | Raise (exn : string).
Arguments Ok {A} x.
Arguments Raise {A} exn.

#[export] Instance result_ret : MRet result := @Ok.
#[export] Instance result_bind : MBind result :=
  fun A B f m => match m with Ok x => f x | Raise exn => Raise exn end.
#[export] Instance result_fmap : FMap result :=
  fun A B f m => match m with Ok x => Ok (f x) | Raise exn => Raise exn end.

(** ** The table *)

(** A [datetime64[ns]] cell: not-a-time, or nanoseconds since the Unix epoch. *)
Inductive datetime : Type :=
  | NaT
  | Stamp (ns : Z).

(** A cell of a [DataFrame]: a Python string (as the JSON API delivers every
    field), a float64, or a timestamp.  A row is the dictionary of its cells;
    a key that is absent from the row is a missing cell, which pandas holds
    as NaN. *)
Inductive value : Type :=
  | Str (s : string)
  | Num (x : f64)
  | Time (t : datetime).

Record frame : Type := Frame {
  columns : gset string;
  rows : list (gmap string value)
}.

Definition cell (c : string) (r : gmap string value) : value :=
  default (Num NaN) (r !! c).

(** The float held by the cell of column [c], NaN when it holds none. *)
Definition num (c : string) (r : gmap string value) : f64 :=
  match cell c r with Num x => x | _ => NaN end.

(** [pd.DataFrame(records)]: the columns are the keys that occur in some
    record. *)
Definition DataFrame (records : list (gmap string value)) : frame :=
  Frame (⋃ (dom <$> records)) records.

(** [df[c]] *)
Definition getitem (df : frame) (c : string) : result (list value) :=
  if decide (c ∈ columns df) then Ok (cell c <$> rows df)
  else Raise "KeyError".

(** [df[c] = s], for a series [s] with one cell per row. *)
Definition setitem (df : frame) (c : string) (s : list value) : frame :=
  Frame (columns df ∪ {[c]}) (zip_with (fun v r => <[c := v]> r) s (rows df)).

(** [df[mask]]: a new table with the rows at which the mask is true. *)
Definition boolean_index (df : frame) (mask : list bool) : frame :=
  Frame (columns df)
        (fst <$> filter (fun p : gmap string value * bool => p.2) (zip (rows df) mask)).

(** The operand of an arithmetic operation or of a comparison with a number. *)
Definition as_float (v : value) : result f64 :=
  match v with Num x => Ok x | _ => Raise "TypeError" end.

(** The operand of the [.dt] accessor. *)
Definition as_time (v : value) : result datetime :=
  match v with Time t => Ok t | _ => Raise "AttributeError" end.

Definition floats (df : frame) (c : string) : result (list f64) :=
  s ← getitem df c; mapM as_float s.

Definition times (df : frame) (c : string) : result (list datetime) :=
  s ← getitem df c; mapM as_time s.

(** ** The pandas functions the script calls *)

(** What the script relies on from pandas beyond float arithmetic: the
    parser behind [pd.to_numeric], which reads a string as a number or fails;
    [pd.to_datetime('2000-01-01') + pd.to_timedelta(x, unit='D')] on one
    cell, which raises when the date leaves the range of nanosecond
    timestamps and gives NaT on a missing cell; the calendar year of a
    timestamp; the integer under a timestamp. *)
Class Pandas : Type := {
  str_to_float : string -> option f64;
  date_plus_days : f64 -> result datetime;
  year_of : Z -> Z;
  time_value : datetime -> f64;
  date_plus_days_NaN : date_plus_days NaN = Ok NaT
}.

Section Pipeline.
Context `{Pandas}.

(** [pd.to_numeric(s, errors='coerce')] on one cell: a string that does not
    parse becomes NaN. *)
Definition to_numeric (v : value) : f64 :=
  match v with
  | Num x => x
  | Str s => default NaN (str_to_float s)
  | Time t => time_value t
  end.

(** [.dt.year] on one cell: NaN on NaT. *)
Definition dt_year (t : datetime) : f64 :=
  match t with
  | NaT => NaN
  | Stamp ns => Fin (IZR (year_of ns))
  end.

(** *** fetch_comet_data (gg.py, lines 83 to 96) *)

Record response : Type := Response {
  status_code : Z;
  json : list (gmap string value)
}.

Definition numeric_columns : list string :=
  ["e"; "i_deg"; "w_deg"; "node_deg"; "q_au_1"; "q_au_2"; "p_yr"; "moid_au"].

(** [df[col] = pd.to_numeric(df[col], errors='coerce')] *)
Definition coerce_column (df : frame) (col : string) : result frame :=
  s ← getitem df col;
  Ok (setitem df col (Num ∘ to_numeric <$> (s : list value))).

Fixpoint for_each (body : frame -> string -> result frame)
         (df : frame) (cols : list string) : result frame :=
  match cols with
  | [] => Ok df
  | col :: cols => df ← body df col; for_each body df cols
  end.

Definition fetch_comet_data (resp : response) : result frame :=
  if decide (status_code resp = 200%Z) then
    df ← for_each coerce_column (DataFrame (json resp)) numeric_columns;
    coerce_column df "epoch_tdb"
  else Ok (DataFrame []).

(** *** The derivation (gg.py, lines 110 to 118, 230, 290, 291 and 314) *)

(** [df[(df['e'] >= e_min) & (df['e'] <= e_max)]] *)
Definition filter_eccentricity (df : frame) (e_min e_max : f64) : result frame :=
  lower ← floats df "e";
  upper ← floats df "e";
  let mask := zip_with andb ((fun x => x >=? e_min)%f64 <$> lower)
                            ((fun x => x <=? e_max)%f64 <$> upper) in
  Ok (boolean_index df mask).

(** [pd.to_datetime('2000-01-01') + pd.to_timedelta(df['epoch_tdb'], unit='D')] *)
Definition discovery_date (df : frame) : result (list value) :=
  epoch ← floats df "epoch_tdb";
  dates ← mapM date_plus_days epoch;
  Ok (Time <$> dates).

(** [df['discovery_date'].dt.year] *)
Definition discovery_year (df : frame) : result (list value) :=
  dates ← times df "discovery_date";
  Ok (Num ∘ dt_year <$> (dates : list datetime)).

(** [df['q_au_1'] / (1 - df['e'])] *)
Definition a_column (df : frame) : result (list value) :=
  q ← floats df "q_au_1";
  e ← floats df "e";
  Ok (zip_with (fun q e => Num (semi_major_axis q e)) q e).

(** [3 / df['a'] + 2 * ((1 - df['e']**2) * df['a'] / 5.2).pow(0.5)
      * np.cos(np.radians(df['i_deg']))] *)
Definition Tisserand_column (df : frame) : result (list value) :=
  a ← floats df "a";
  e ← floats df "e";
  i ← floats df "i_deg";
  Ok (zip_with (fun ae i => Num (Tisserand ae.1 ae.2 i)) (zip a e) i).

(** [df['Tisserand'].apply(lambda t: ...)] *)
Definition Family_column (df : frame) : result (list value) :=
  t ← floats df "Tisserand";
  Ok (Str ∘ classifyFamily <$> (t : list f64)).

(** [1329 / np.sqrt(0.04) * 10**(-0.2 * h)] *)
Definition estimated_size (h : f64) : f64 :=
  (Fin 1329 / fsqrt (Fin 0.04) * fpow10 (Fin (-0.2) * h))%f64.

(** [1329 / np.sqrt(0.04)
      * 10**(-0.2 * pd.to_numeric(df['h_mag'], errors='coerce'))] *)
Definition estimated_size_column (df : frame) : result (list value) :=
  h ← getitem df "h_mag";
  Ok (Num ∘ estimated_size ∘ to_numeric <$> (h : list value)).

Definition G : R := 6.67430e-11.
Definition M_sun : R := 1.98847e30.

(** [-G * M_sun / (2 * a * 1.496e11)] *)
Definition orbital_energy (a : f64) : f64 :=
  (Fin (- G * M_sun) / (Fin 2 * a * Fin 1.496e11))%f64.

(** [-G * M_sun / (2 * df['a'] * 1.496e11)] *)
Definition orbital_energy_column (df : frame) : result (list value) :=
  a ← floats df "a";
  Ok (Num ∘ orbital_energy <$> (a : list f64)).

(** The script holds its tables by reference: [df] and [df_filtered] name
    objects of a store, and [df_filtered[c] = ...] updates the object in
    place.  A statement runs on a store and returns with the store it
    leaves, or raises. *)
Definition loc : Type := positive.

Definition Script (A : Type) : Type :=
  gmap loc frame -> result (A * gmap loc frame).

#[export] Instance script_ret : MRet Script :=
  fun A x h => Ok (x, h).

#[export] Instance script_bind : MBind Script :=
  fun A B k m h =>
    match m h with Ok (x, h') => k x h' | Raise exn => Raise exn end.

Definition lift {A} (r : result A) : Script A :=
  fun h => match r with Ok x => Ok (x, h) | Raise exn => Raise exn end.

Definition read (l : loc) : Script frame :=
  fun h => match h !! l with Some df => Ok (df, h) | None => Raise "NameError" end.

Definition write (l : loc) (df : frame) : Script unit :=
  fun h => Ok (tt, <[l := df]> h).

(** A new object, at an address no object of the store has. *)
Definition alloc (df : frame) : Script loc :=
  fun h => let l := fresh (dom h) in Ok (l, <[l := df]> h).

(** [table[c] = column(table)] *)
Definition assign (table : loc) (c : string)
           (column : frame -> result (list value)) : Script unit :=
  df ← read table;
  s ← lift (column df);
  write table (setitem df c s).

(** [if 'h_mag' in table.columns: table['estimated_size'] = ...] *)
Definition assign_estimated_size (table : loc) : Script unit :=
  df ← read table;
  if decide ("h_mag" ∈ columns df)
  then assign table "estimated_size" estimated_size_column
  else mret tt.

(** The statements of the script that build [df_filtered] from [df]. *)
Definition deriveAll (df : loc) (e_min e_max : f64) : Script loc :=
  d ← read df;
  kept ← lift (filter_eccentricity d e_min e_max);
  df_filtered ← alloc kept;
  _ ← assign df_filtered "discovery_date" discovery_date;
  _ ← assign df_filtered "discovery_year" discovery_year;
  _ ← assign df_filtered "a" a_column;
  _ ← assign df_filtered "Tisserand" Tisserand_column;
  _ ← assign df_filtered "Family" Family_column;
  _ ← assign_estimated_size df_filtered;
  _ ← assign df_filtered "orbital_energy" orbital_energy_column;
  mret df_filtered.

(** *** The orbit of one selected comet (gg.py, lines 207 to 222) *)

(** [name == comet] on one cell of the column of names *)
Definition is_named (comet : string) (name : value) : bool :=
  match name with Str s => bool_decide (s = comet) | _ => false end.

(** [df[df['object'] == comet].iloc[0]] *)
Definition select_comet (df : frame) (comet : string) : result (gmap string value) :=
  names ← getitem df "object";
  match rows (boolean_index df (is_named comet <$> (names : list value))) with
  | comet_data :: _ => Ok comet_data
  | [] => Raise "IndexError"
  end.

End Pipeline.

(** ** Vocabulary of the statements *)

(** Column [c] of the table is a float64 column: it exists and every row
    holds a float in it.  This is what [fetch_comet_data] establishes for the
    columns it converts. *)
Definition float_cell (c : string) (r : gmap string value) : Prop :=
  exists x, cell c r = Num x.

Definition time_cell (c : string) (r : gmap string value) : Prop :=
  exists t, cell c r = Time t.

Definition float_column (c : string) (df : frame) : Prop :=
  c ∈ columns df /\ Forall (float_cell c) (rows df).

(** The eccentricity of the record is defined and lies in the inclusive
    range from [e_min] to [e_max]. *)
Definition in_range (e_min e_max : R) (r : gmap string value) : Prop :=
  match num "e" r with
  | Fin x => e_min <= x <= e_max
  | _ => False
  end.

#[export] Instance in_range_dec e_min e_max r : Decision (in_range e_min e_max r).
Proof.
  unfold Decision, in_range. destruct (num "e" r) as [| | |x];
    try (right; intros []; fail). destruct (Rle_dec e_min x), (Rle_dec x e_max);
    [left | right | right | right]; lra.
Defined.

(** The test of the mask of line 110 on one row. *)
Definition in_mask (e_min e_max : f64) (r : gmap string value) : bool :=
  ((num "e" r >=? e_min) && (num "e" r <=? e_max))%f64.

(** The timestamp held by the cell of column [c], NaT when it holds none. *)
Definition time_of (c : string) (r : gmap string value) : datetime :=
  match cell c r with Time t => t | _ => NaT end.

(** [df[c] = column] read row by row: every row receives in column [c] the
    cell [g] computes from that row. *)
Definition with_column (c : string) (g : gmap string value -> value) (df : frame) : frame :=
  Frame (columns df ∪ {[c]}) ((fun r => <[c := g r]> r) <$> rows df).

(** The tables the derivation computes on: the columns it reads hold floats. *)
Definition numeric_frame (df : frame) : Prop :=
  float_column "e" df /\ float_column "q_au_1" df /\
  float_column "i_deg" df /\ float_column "epoch_tdb" df.

Section Vocabulary.
Context `{Pandas}.

(** The row the script makes of the kept row [r], whose discovery date is
    [date]: the cells of [r] and the derived cells, the estimated size only
    when the table has a column of magnitudes. *)
Definition derived_row (with_size : bool) (r : gmap string value) (date : datetime)
  : gmap string value :=
  let a := semi_major_axis (num "q_au_1" r) (num "e" r) in
  let T := Tisserand a (num "e" r) (num "i_deg" r) in
  let classified :=
    <["Family" := Str (classifyFamily T)]>
      (<["Tisserand" := Num T]>
         (<["a" := Num a]>
            (<["discovery_year" := Num (dt_year date)]>
               (<["discovery_date" := Time date]> r)))) in
  let sized :=
    if with_size
    then <["estimated_size" := Num (estimated_size (to_numeric (cell "h_mag" r)))]>
           classified
    else classified in
  <["orbital_energy" := Num (orbital_energy a)]> sized.

Definition derived_columns (with_size : bool) (cols : gset string) : gset string :=
  let classified :=
    cols ∪ {["discovery_date"]} ∪ {["discovery_year"]} ∪ {["a"]}
         ∪ {["Tisserand"]} ∪ {["Family"]} in
  (if with_size then classified ∪ {["estimated_size"]} else classified)
    ∪ {["orbital_energy"]}.

(** The names of the columns the derivation writes. *)
Definition derived_names : list string :=
  ["discovery_date"; "discovery_year"; "a"; "Tisserand"; "Family";
   "estimated_size"; "orbital_energy"].

(** The cells [fetch_comet_data] converts, on one row. *)
Definition coerce_cells (cols : list string) (r : gmap string value) : gmap string value :=
  foldl (fun r c => <[c := Num (to_numeric (cell c r))]> r) r cols.

(** The table a column assignment leaves, as a function of the table it
    finds. *)
Definition assigned (c : string) (column : frame -> result (list value))
           (df : frame) : result frame :=
  s ← column df; Ok (setitem df c s).

(** The table the statements of [deriveAll] leave in [df_filtered], as a
    function of the table [df] names. *)
Definition derive_frame (d : frame) (e_min e_max : f64) : result frame :=
  kept ← filter_eccentricity d e_min e_max;
  dated ← assigned "discovery_date" discovery_date kept;
  year ← assigned "discovery_year" discovery_year dated;
  axis ← assigned "a" a_column year;
  tiss ← assigned "Tisserand" Tisserand_column axis;
  fam ← assigned "Family" Family_column tiss;
  sized ← (if decide ("h_mag" ∈ columns fam)
           then assigned "estimated_size" estimated_size_column fam
           else Ok fam);
  assigned "orbital_energy" orbital_energy_column sized.


(** The columns [fetch_comet_data] converts. *)
Definition converted_columns : list string := numeric_columns ++ ["epoch_tdb"].

(** What a run of the script returns: the table at the address it
    returns, in the store it leaves. *)
Definition returned_table (run : result (loc * gmap loc frame))
  : result (option frame) :=
  (fun p : loc * gmap loc frame => p.2 !! p.1) <$> run.

(** The output row [o] carries the cells of the input row [r] in every
    column the derivation does not write. *)
Definition same_record (r o : gmap string value) : Prop :=
  forall c, c ∉ derived_names -> o !! c = r !! c.

(** The discovery date of the record can be computed. *)
Definition datable (r : gmap string value) : Prop :=
  exists t, date_plus_days (num "epoch_tdb" r) = Ok t.
End Vocabulary.

(** ** Examples *)

(** A stand-in for pandas, for the examples: it reads the string ["0.5"],
    dates every finite offset on the reference day and rejects the infinite
    ones. *)
Definition example_pandas : Pandas := {|
  str_to_float := fun s => if decide (s = "0.5") then Some (Fin 0.5) else None;
  date_plus_days := fun x =>
    match x with
    | NaN => Ok NaT
    | Fin _ => Ok (Stamp 946684800000000000)
    | _ => Raise "OutOfBoundsTimedelta"
    end;
  year_of := fun _ => 2000%Z;
  time_value := fun _ => NaN;
  date_plus_days_NaN := eq_refl
|}.

(** A row of the converted table. *)
Definition comet_row (name : string) (e q i w node epoch : f64) : gmap string value :=
  <["object" := Str name]>
    (<["e" := Num e]>
       (<["q_au_1" := Num q]>
          (<["i_deg" := Num i]>
             (<["w_deg" := Num w]>
                (<["node_deg" := Num node]>
                   (<["epoch_tdb" := Num epoch]> ∅)))))).

Definition comet_columns : gset string :=
  {["object"; "e"; "q_au_1"; "i_deg"; "w_deg"; "node_deg"; "epoch_tdb"]}.

(** The table of the filter scenario: eccentricities 0.1, 0.5, 1.2 and a
    missing one. *)
Definition scenario : frame :=
  Frame comet_columns
        [comet_row "A" (Fin 0.1) (Fin 1) (Fin 10) (Fin 50) (Fin 100) (Fin 0);
         comet_row "B" (Fin 0.5) (Fin 1) (Fin 10) (Fin 50) (Fin 100) (Fin 0);
         comet_row "C" (Fin 1.2) (Fin 1) (Fin 10) (Fin 50) (Fin 100) (Fin 0);
         comet_row "D" NaN (Fin 1) (Fin 10) (Fin 50) (Fin 100) NaN].

(** A record as the API delivers it, every field a string: the inclination
    is not a number and the period is absent. *)
Definition example_record : gmap string value :=
  <["object" := Str "A"]>
    (<["e" := Str "0.5"]>
       (<["i_deg" := Str "n/a"]>
          (<["w_deg" := Str "0.5"]>
             (<["node_deg" := Str "0.5"]>
                (<["q_au_1" := Str "0.5"]>
                   (<["q_au_2" := Str "0.5"]>
                      (<["moid_au" := Str "0.5"]>
                         (<["epoch_tdb" := Str "0.5"]> ∅)))))))).

(** A second record, which has a period. *)
Definition example_record_with_period : gmap string value :=
  <["p_yr" := Str "0.5"]> example_record.


(** ** The statements around the derivation *)





(** [Series.notna()] on one cell *)
Definition notna (v : value) : bool :=
  match v with
  | Num NaN | Time NaT => false
  | _ => true
  end.

(** [df_period = df[df['p_yr'].notna() & (df['p_yr'] > 0)]] (line 161) *)
Definition df_period (df : frame) : result frame :=
  known ← getitem df "p_yr";
  period ← floats df "p_yr";
  let mask := zip_with andb (notna <$> (known : list value))
                            ((fun p => p >? Fin 0)%f64 <$> period) in
  Ok (boolean_index df mask).

(** [len(df[df['p_yr'].notna()])] (line 270) *)
Definition valid_periods (df : frame) : result nat :=
  known ← getitem df "p_yr";
  Ok (length (rows (boolean_index df (notna <$> (known : list value))))).


(** A table with a column of periods: one positive, one missing, one zero. *)
Definition period_table : frame :=
  Frame {["object"; "p_yr"]}
        [<["object" := Str "A"]> (<["p_yr" := Num (Fin 5)]> ∅);
         <["object" := Str "B"]> (<["p_yr" := Num NaN]> ∅);
         <["object" := Str "C"]> (<["p_yr" := Num (Fin 0)]> ∅)].

(** A derived table of two comets with the columns the orbit is drawn
    from. *)
Definition orbit_table : frame :=
  Frame ({["a"]} ∪ comet_columns)
        [<["a" := Num (Fin 2)]>
           (comet_row "A" (Fin (1 / 2)) (Fin 1) (Fin 10) (Fin 50) (Fin 100) (Fin 0));
         <["a" := Num (Fin 3)]>
           (comet_row "B" (Fin 0) (Fin 3) (Fin 20) (Fin 50) (Fin 100) (Fin 0))].

(** ** Facts about float64 cells *)

Lemma Rltb_true (x y : R) : Rltb x y = true <-> x < y.
Proof. unfold Rltb. destruct (Rlt_dec x y); split; intros; try lra; congruence. Qed.

Lemma Rleb_true (x y : R) : Rleb x y = true <-> x <= y.
Proof. unfold Rleb. destruct (Rle_dec x y); split; intros; try lra; congruence. Qed.

(** Case analysis on the real comparisons a goal tests. *)
Ltac real_case :=
  match goal with
  | |- context [Rlt_dec ?x ?y] => destruct (Rlt_dec x y); try lra
  | |- context [Rle_dec ?x ?y] => destruct (Rle_dec x y); try lra
  | |- context [Req_dec_T ?x ?y] => destruct (Req_dec_T x y); try lra
  end.

Ltac f64_simpl :=
  unfold fgt, fge, fsub, scale_inf in *; simpl in *; unfold Rltb, Rleb in *.

Ltac real_cases :=
  repeat (progress f64_simpl || real_case);
  try lra; try congruence; try reflexivity.







(** ** The semi-major axis *)




(** ** Family classification *)

Lemma classifyFamily_finite (T : R) :
  classifyFamily (Fin T) =
    if Rlt_dec 3 T then "Encke-type"
    else if Rlt_dec 2 T then "Jupiter-family" else "Halley-type".
Proof.
  unfold classifyFamily. f64_simpl. real_cases.
Qed.

(** C1 (the code departs from it): an undefined Tisserand parameter is not
    left unclassified.  NaN fails both tests of the lambda and falls into its
    last branch, so the row is labelled Halley-type; this is the label of
    every parabolic orbit ([e = 1]), whose Tisserand parameter is NaN. *)
Theorem classifyFamily_undefined_is_halley :
  classifyFamily NaN = "Halley-type" /\
  Tisserand (semi_major_axis (Fin 1) (Fin 1)) (Fin 1) (Fin 0) = NaN /\
  classifyFamily (Tisserand (semi_major_axis (Fin 1) (Fin 1)) (Fin 1) (Fin 0))
    = "Halley-type".
Proof.
  assert (HT : Tisserand (semi_major_axis (Fin 1) (Fin 1)) (Fin 1) (Fin 0) = NaN).
  { unfold Tisserand, semi_major_axis. f64_simpl. real_cases. }
  rewrite HT. repeat split.
Qed.

(** C3: on a defined Tisserand parameter the label is Encke-type exactly
    when [T > 3], Jupiter-family exactly when [2 < T <= 3] and Halley-type
    exactly when [T <= 2]; the boundary [3] is Jupiter-family and the
    boundary [2] is Halley-type; the label is always one of the three, and
    the three conditions exclude one another.  The infinities fall where the
    order puts them. *)
Theorem classifyFamily_boundaries (T : R) :
  (classifyFamily (Fin T) = "Encke-type" <-> 3 < T) /\
  (classifyFamily (Fin T) = "Jupiter-family" <-> 2 < T <= 3) /\
  (classifyFamily (Fin T) = "Halley-type" <-> T <= 2) /\
  classifyFamily (Fin 3) = "Jupiter-family" /\
  classifyFamily (Fin 2) = "Halley-type" /\
  (classifyFamily (Fin T) = "Encke-type"
   \/ classifyFamily (Fin T) = "Jupiter-family"
   \/ classifyFamily (Fin T) = "Halley-type") /\
  classifyFamily PInf = "Encke-type" /\
  classifyFamily NInf = "Halley-type".
Proof.
  rewrite !classifyFamily_finite.
  repeat split; try (destruct (Rlt_dec 3 T), (Rlt_dec 2 T); intros;
                     try lra; try discriminate; try reflexivity; fail).
  - destruct (Rlt_dec 3 3); [lra|]. destruct (Rlt_dec 2 3); [reflexivity|lra].
  - destruct (Rlt_dec 3 2); [lra|]. destruct (Rlt_dec 2 2); [lra|reflexivity].
  - destruct (Rlt_dec 3 T), (Rlt_dec 2 T); auto.
Qed.

(** ** The Tisserand parameter *)






(** ** Facts about tables *)

Section FrameFacts.
Implicit Types (r : gmap string value) (df : frame) (c : string) (v : value).

Lemma cell_insert_eq c v r : cell c (<[c := v]> r) = v.
Proof. unfold cell. now rewrite lookup_insert_eq. Qed.

Lemma cell_insert_ne c c' v r : c ≠ c' -> cell c' (<[c := v]> r) = cell c' r.
Proof. intros Hne. unfold cell. now rewrite lookup_insert_ne. Qed.

Lemma num_insert_eq c x r : num c (<[c := Num x]> r) = x.
Proof. unfold num. now rewrite cell_insert_eq. Qed.

Lemma num_insert_ne c c' v r : c ≠ c' -> num c' (<[c := v]> r) = num c' r.
Proof. intros Hne. unfold num. now rewrite cell_insert_ne. Qed.

Lemma float_cell_num c r : float_cell c r -> cell c r = Num (num c r).
Proof. intros [x Hx]. unfold num. now rewrite Hx. Qed.

Lemma mapM_as_float (rs : list (gmap string value)) c :
  Forall (float_cell c) rs ->
  mapM as_float (cell c <$> rs) = Ok (num c <$> rs).
Proof.
  induction 1 as [|r rs Hr _ IH]; [reflexivity|].
  cbn. rewrite (float_cell_num _ _ Hr). cbn. rewrite IH. reflexivity.
Qed.

Lemma floats_float_column df c :
  float_column c df -> floats df c = Ok (num c <$> rows df).
Proof.
  intros [Hc Hrows]. unfold floats, getitem.
  rewrite decide_True by exact Hc. cbn. now apply mapM_as_float.
Qed.

Lemma setitem_fmap df c (g : gmap string value -> value) :
  setitem df c (g <$> rows df) = with_column c g df.
Proof.
  unfold setitem, with_column. f_equal.
  rewrite zip_with_fmap_l. apply zip_with_diag.
Qed.

Lemma with_column_float_ne c c' g df :
  c ≠ c' -> float_column c' df -> float_column c' (with_column c g df).
Proof.
  intros Hne [Hc Hrows]. split; [set_solver|]. cbn.
  apply Forall_fmap. eapply Forall_impl; [exact Hrows|].
  intros r [x Hx]. exists x. cbn. now rewrite cell_insert_ne.
Qed.

Lemma with_column_float_eq c (g : gmap string value -> f64) df :
  float_column c (with_column c (fun r => Num (g r)) df).
Proof.
  split; [set_solver|]. cbn. apply Forall_fmap, Forall_true.
  intros r. exists (g r). cbn. apply cell_insert_eq.
Qed.

Lemma float_column_filter c df (P : gmap string value -> Prop)
      `{!forall r, Decision (P r)} :
  float_column c df -> float_column c (Frame (columns df) (filter P (rows df))).
Proof.
  intros [Hc Hrows]. split; [exact Hc|]. cbn.
  apply Forall_forall. intros r Hr%list_elem_of_filter.
  rewrite Forall_forall in Hrows. now apply Hrows.
Qed.

(** A mask computed row by row selects the rows that pass its test. *)
Lemma boolean_index_fmap df (f : gmap string value -> bool) :
  boolean_index df (f <$> rows df) = Frame (columns df) (filter (fun r => f r) (rows df)).
Proof.
  unfold boolean_index. f_equal.
  induction (rows df) as [|r rs IH]; [reflexivity|].
  simpl. rewrite !filter_cons. simpl. destruct (f r); simpl.
  - f_equal. exact IH.
  - exact IH.
Qed.

Lemma filter_eccentricity_rowwise df e_min e_max :
  float_column "e" df ->
  filter_eccentricity df e_min e_max
  = Ok (Frame (columns df) (filter (fun r => in_mask e_min e_max r) (rows df))).
Proof.
  intros He. unfold filter_eccentricity.
  rewrite (floats_float_column _ _ He). cbn.
  rewrite zip_with_fmap_l, zip_with_fmap_r, zip_with_diag.
  rewrite <- list_fmap_compose, boolean_index_fmap. reflexivity.
Qed.

Lemma in_mask_in_range (e_min e_max : R) r :
  in_mask (Fin e_min) (Fin e_max) r <-> in_range e_min e_max r.
Proof.
  unfold in_mask, in_range, fge. destruct (num "e" r) as [| | |x]; cbn;
    try tauto.
  rewrite andb_True, !Is_true_true, !Rleb_true. tauto.
Qed.
End FrameFacts.

(** ** Facts about the statements of the script *)

Section ScriptFacts.
Context `{Pandas}.
Implicit Types (r : gmap string value) (df : frame) (c : string) (v : value).
Implicit Types (h : gmap loc frame) (l : loc).

Lemma script_bind_ok {A B} (m : Script A) (k : A -> Script B) h x h' :
  m h = Ok (x, h') -> (m ≫= k) h = k x h'.
Proof. intros Hm. unfold mbind, script_bind. now rewrite Hm. Qed.

(** *** The columns, row by row *)

Lemma mapM_as_time (rs : list (gmap string value)) c :
  Forall (time_cell c) rs ->
  mapM as_time (cell c <$> rs) = Ok (time_of c <$> rs).
Proof.
  induction 1 as [|r rs [t Ht] _ IH]; [reflexivity|].
  cbn. unfold time_of at 1. rewrite Ht. cbn. rewrite IH. reflexivity.
Qed.

Lemma discovery_year_rowwise df :
  "discovery_date" ∈ columns df ->
  Forall (time_cell "discovery_date") (rows df) ->
  discovery_year df
  = Ok ((fun r => Num (dt_year (time_of "discovery_date" r))) <$> rows df).
Proof.
  intros Hc Hrows. unfold discovery_year, times, getitem.
  rewrite decide_True by exact Hc. cbn.
  rewrite (mapM_as_time _ _ Hrows). cbn.
  now rewrite <- list_fmap_compose.
Qed.

Lemma a_column_rowwise df :
  float_column "q_au_1" df -> float_column "e" df ->
  a_column df
  = Ok ((fun r => Num (semi_major_axis (num "q_au_1" r) (num "e" r))) <$> rows df).
Proof.
  intros Hq He. unfold a_column.
  rewrite (floats_float_column _ _ Hq), (floats_float_column _ _ He). cbn.
  now rewrite zip_with_fmap_l, zip_with_fmap_r, zip_with_diag.
Qed.

Lemma Tisserand_column_rowwise df :
  float_column "a" df -> float_column "e" df -> float_column "i_deg" df ->
  Tisserand_column df
  = Ok ((fun r => Num (Tisserand (num "a" r) (num "e" r) (num "i_deg" r)))
          <$> rows df).
Proof.
  intros Ha He Hi. unfold Tisserand_column.
  rewrite (floats_float_column _ _ Ha), (floats_float_column _ _ He),
    (floats_float_column _ _ Hi). cbn.
  rewrite (zip_with_fmap_l pair), (zip_with_fmap_r (fun x => pair (num "a" x))).
  rewrite zip_with_diag, zip_with_fmap_l, zip_with_fmap_r, zip_with_diag.
  reflexivity.
Qed.

Lemma Family_column_rowwise df :
  float_column "Tisserand" df ->
  Family_column df
  = Ok ((fun r => Str (classifyFamily (num "Tisserand" r))) <$> rows df).
Proof.
  intros HT. unfold Family_column.
  rewrite (floats_float_column _ _ HT). cbn.
  now rewrite <- list_fmap_compose.
Qed.

Lemma estimated_size_column_rowwise df :
  "h_mag" ∈ columns df ->
  estimated_size_column df
  = Ok ((fun r => Num (estimated_size (to_numeric (cell "h_mag" r)))) <$> rows df).
Proof.
  intros Hc. unfold estimated_size_column, getitem.
  rewrite decide_True by exact Hc. cbn.
  now rewrite <- list_fmap_compose.
Qed.

Lemma orbital_energy_column_rowwise df :
  float_column "a" df ->
  orbital_energy_column df
  = Ok ((fun r => Num (orbital_energy (num "a" r))) <$> rows df).
Proof.
  intros Ha. unfold orbital_energy_column.
  rewrite (floats_float_column _ _ Ha). cbn.
  now rewrite <- list_fmap_compose.
Qed.

(** *** The whole derivation *)

Lemma fmap_zip_with_compose {A B C D} (f : C -> D) (g : A -> B -> C)
      (xs : list A) (ys : list B) :
  f <$> zip_with g xs ys = zip_with (fun x y => f (g x y)) xs ys.
Proof. revert ys. induction xs; intros [|??]; f_equal/=; auto. Qed.

Lemma discovery_date_rowwise df :
  float_column "epoch_tdb" df ->
  discovery_date df
  = (dates ← mapM date_plus_days (num "epoch_tdb" <$> rows df);
     Ok (Time <$> (dates : list datetime))).
Proof.
  intros Hep. unfold discovery_date.
  now rewrite (floats_float_column _ _ Hep).
Qed.

(** The row the statements after the discovery date make of a dated row. *)
Lemma derived_row_steps (ws : bool) r t :
  let dated := <["discovery_date" := Time t]> r in
  let year := <["discovery_year" := Num (dt_year (time_of "discovery_date" dated))]> dated in
  let axis :=
    <["a" := Num (semi_major_axis (num "q_au_1" year) (num "e" year))]> year in
  let tiss :=
    <["Tisserand" := Num (Tisserand (num "a" axis) (num "e" axis) (num "i_deg" axis))]>
      axis in
  let fam := <["Family" := Str (classifyFamily (num "Tisserand" tiss))]> tiss in
  let sized :=
    if ws
    then <["estimated_size" := Num (estimated_size (to_numeric (cell "h_mag" fam)))]> fam
    else fam in
  <["orbital_energy" := Num (orbital_energy (num "a" sized))]> sized
  = derived_row ws r t.
Proof.
  intros dated year axis tiss fam sized.
  unfold derived_row, sized, fam, tiss, axis, year, dated, time_of.
  destruct ws;
    repeat first
      [ rewrite cell_insert_eq
      | rewrite num_insert_eq
      | rewrite num_insert_ne by done
      | rewrite cell_insert_ne by done ];
    reflexivity.
Qed.
Lemma dated_rows_frame df dates :
  setitem df "discovery_date" (Time <$> dates)
  = Frame (columns df ∪ {["discovery_date"]})
          (zip_with (fun r t => <["discovery_date" := Time t]> r) (rows df) dates).
Proof.
  unfold setitem. f_equal. rewrite zip_with_fmap_l.
  now rewrite <- zip_with_flip.
Qed.

Ltac float_col :=
  repeat first
    [ assumption
    | apply with_column_float_eq
    | apply with_column_float_ne; [discriminate|] ].

Lemma dated_float_column c df dates :
  c ≠ "discovery_date" -> float_column c df ->
  float_column c
    (Frame (columns df ∪ {["discovery_date"]})
           (zip_with (fun r t => <["discovery_date" := Time t]> r) (rows df) dates)).
Proof.
  intros Hne [Hc Hrows]. split; [set_solver|]. cbn.
  eapply Forall_zip_with_fst; [exact Hrows|]. apply Forall_true.
  intros t r [x Hx]. exists x. now rewrite cell_insert_ne.
Qed.

Lemma assign_run l c column h df :
  h !! l = Some df ->
  assign l c column h
  = (out ← assigned c column df; Ok (tt, <[l := out]> h)).
Proof.
  intros Hl. unfold assign, assigned, mbind, script_bind, read, lift, write.
  rewrite Hl. cbn. now destruct (column df).
Qed.

Lemma assign_estimated_size_run l h df :
  h !! l = Some df ->
  assign_estimated_size l h
  = (out ← (if decide ("h_mag" ∈ columns df)
            then assigned "estimated_size" estimated_size_column df
            else Ok df);
     Ok (tt, <[l := out]> h)).
Proof.
  intros Hl. unfold assign_estimated_size.
  rewrite (script_bind_ok _ _ h df h) by (unfold read; now rewrite Hl).
  destruct (decide ("h_mag" ∈ columns df)).
  - now apply assign_run.
  - cbn. now rewrite insert_id.
Qed.

(** One statement of the script, run on a store whose object [l] is the
    table the statement works on. *)
Lemma script_step {B} (m : Script unit) (k : unit -> Script B)
      (step : result frame) h l :
  m h = (out ← step; Ok (tt, <[l := out]> h)) ->
  (m ≫= k) h
  = match step with
    | Ok out => k tt (<[l := out]> h)
    | Raise exn => Raise exn
    end.
Proof.
  intros Hm. unfold mbind at 1, script_bind. rewrite Hm.
  now destruct step.
Qed.

(** The script reads the store only at [df], and writes it only at a new
    address, where it leaves [derive_frame] of the table it read. *)
Lemma deriveAll_functional h (input : loc) d e_min e_max :
  h !! input = Some d ->
  deriveAll input e_min e_max h
  = (out ← derive_frame d e_min e_max;
     Ok (fresh (dom h), <[fresh (dom h) := out]> h)).
Proof.
  intros Hd. unfold deriveAll, derive_frame.
  rewrite (script_bind_ok _ _ h d h) by (unfold read; now rewrite Hd).
  destruct (filter_eccentricity d e_min e_max) as [kept|exn];
    [|reflexivity].
  rewrite (script_bind_ok _ _ h kept h) by reflexivity.
  rewrite (script_bind_ok _ _ h (fresh (dom h)) (<[fresh (dom h) := kept]> h))
    by reflexivity.
  set (l := fresh (dom h)). cbn [mbind result_bind].
  rewrite (script_step _ _ (assigned "discovery_date" discovery_date kept) _ l)
    by apply assign_run, lookup_insert_eq.
  destruct (assigned "discovery_date" discovery_date kept) as [dated|exn];
    [|reflexivity].
  rewrite insert_insert_eq. cbn [mbind result_bind].
  rewrite (script_step _ _ (assigned "discovery_year" discovery_year dated) _ l)
    by apply assign_run, lookup_insert_eq.
  destruct (assigned "discovery_year" discovery_year dated) as [year|exn];
    [|reflexivity].
  rewrite insert_insert_eq. cbn [mbind result_bind].
  rewrite (script_step _ _ (assigned "a" a_column year) _ l)
    by apply assign_run, lookup_insert_eq.
  destruct (assigned "a" a_column year) as [axis|exn]; [|reflexivity].
  rewrite insert_insert_eq. cbn [mbind result_bind].
  rewrite (script_step _ _ (assigned "Tisserand" Tisserand_column axis) _ l)
    by apply assign_run, lookup_insert_eq.
  destruct (assigned "Tisserand" Tisserand_column axis) as [tiss|exn];
    [|reflexivity].
  rewrite insert_insert_eq. cbn [mbind result_bind].
  rewrite (script_step _ _ (assigned "Family" Family_column tiss) _ l)
    by apply assign_run, lookup_insert_eq.
  destruct (assigned "Family" Family_column tiss) as [fam|exn]; [|reflexivity].
  rewrite insert_insert_eq. cbn [mbind result_bind].
  erewrite script_step
    by apply assign_estimated_size_run, lookup_insert_eq.
  destruct (if decide ("h_mag" ∈ columns fam)
            then assigned "estimated_size" estimated_size_column fam
            else Ok fam) as [sized|exn]; [|reflexivity].
  rewrite insert_insert_eq. cbn [mbind result_bind].
  rewrite (script_step _ _ (assigned "orbital_energy" orbital_energy_column sized) _ l)
    by apply assign_run, lookup_insert_eq.
  destruct (assigned "orbital_energy" orbital_energy_column sized) as [out|exn];
    [|reflexivity].
  rewrite insert_insert_eq. reflexivity.
Qed.
Lemma assigned_rowwise c column (g : gmap string value -> value) df :
  column df = Ok (g <$> rows df) ->
  assigned c column df = Ok (with_column c g df).
Proof. intros Hs. unfold assigned. rewrite Hs. cbn. now rewrite setitem_fmap. Qed.

Lemma assigned_discovery_date df :
  float_column "epoch_tdb" df ->
  assigned "discovery_date" discovery_date df
  = (dates ← mapM date_plus_days (num "epoch_tdb" <$> rows df);
     Ok (Frame (columns df ∪ {["discovery_date"]})
               (zip_with (fun r t => <["discovery_date" := Time t]> r)
                         (rows df) dates))).
Proof.
  intros Hep. unfold assigned. rewrite (discovery_date_rowwise _ Hep).
  destruct (mapM date_plus_days (num "epoch_tdb" <$> rows df)); [|reflexivity].
  cbn. now rewrite dated_rows_frame.
Qed.

(** On a table with float columns, the derivation row by row: the rows that
    pass the mask, each with its derived cells, in the order of the input;
    it raises only when a discovery date does. *)
Lemma derive_frame_rowwise d e_min e_max :
  numeric_frame d ->
  let kept := filter (fun r => in_mask e_min e_max r) (rows d) in
  let ws := bool_decide ("h_mag" ∈ columns d) in
  derive_frame d e_min e_max
  = (dates ← mapM date_plus_days (num "epoch_tdb" <$> kept);
     Ok (Frame (derived_columns ws (columns d))
               (zip_with (derived_row ws) kept dates))).
Proof.
  intros (He & Hq & Hi & Hep) kept ws. unfold derive_frame.
  rewrite (filter_eccentricity_rowwise _ _ _ He). cbn [mbind result_bind].
  fold kept. set (K := Frame (columns d) kept).
  assert (HKe : float_column "e" K) by now apply float_column_filter.
  assert (HKq : float_column "q_au_1" K) by now apply float_column_filter.
  assert (HKi : float_column "i_deg" K) by now apply float_column_filter.
  assert (HKep : float_column "epoch_tdb" K) by now apply float_column_filter.
  rewrite (assigned_discovery_date K HKep). cbn [rows K].
  destruct (mapM date_plus_days (num "epoch_tdb" <$> kept)) as [dates|exn];
    [|reflexivity].
  cbn [mbind result_bind columns rows K].
  pose proof (dated_float_column "e" K dates ltac:(discriminate) HKe) as H1e.
  pose proof (dated_float_column "q_au_1" K dates ltac:(discriminate) HKq) as H1q.
  pose proof (dated_float_column "i_deg" K dates ltac:(discriminate) HKi) as H1i.
  cbn [columns rows K] in H1e, H1q, H1i.
  set (F1 := Frame (columns d ∪ {["discovery_date"]}) _) in *.
  assert (H1t : Forall (time_cell "discovery_date") (rows F1)).
  { cbn. eapply Forall_zip_with_fst; [apply Forall_true; intros r; exact I|].
    apply Forall_true. intros t r _. exists t. apply cell_insert_eq. }
  erewrite assigned_rowwise
    by (apply discovery_year_rowwise; [cbn; set_solver | exact H1t]).
  cbn [mbind result_bind].
  erewrite assigned_rowwise by (apply a_column_rowwise; float_col).
  cbn [mbind result_bind].
  erewrite assigned_rowwise by (apply Tisserand_column_rowwise; float_col).
  cbn [mbind result_bind].
  erewrite assigned_rowwise by (apply Family_column_rowwise; float_col).
  cbn [mbind result_bind].
  set (F5 := with_column "Family" _ _).
  assert (H5a : float_column "a" F5) by (unfold F5; float_col).
  assert (Hws : "h_mag" ∈ columns F5 <-> "h_mag" ∈ columns d).
  { unfold F5, F1. cbn. rewrite !elem_of_union, !elem_of_singleton.
    split; [|tauto]. intuition discriminate. }
  unfold ws. destruct (decide ("h_mag" ∈ columns F5)) as [Hin|Hout].
  - rewrite bool_decide_eq_true_2 by now apply Hws.
    erewrite assigned_rowwise by now apply estimated_size_column_rowwise.
    cbn [mbind result_bind].
    erewrite assigned_rowwise by (apply orbital_energy_column_rowwise; float_col).
    f_equal. unfold with_column, F5, F1, derived_columns. cbn. f_equal.
    rewrite <- !list_fmap_compose, fmap_zip_with_compose.
    apply zip_with_ext; [|reflexivity..].
    intros r t. apply (derived_row_steps true).
  - rewrite bool_decide_eq_false_2 by (intros Hd'; now apply Hout, Hws).
    cbn [mbind result_bind].
    erewrite assigned_rowwise by (apply orbital_energy_column_rowwise; float_col).
    f_equal. unfold with_column, F5, F1, derived_columns. cbn. f_equal.
    rewrite <- !list_fmap_compose, fmap_zip_with_compose.
    apply zip_with_ext; [|reflexivity..].
    intros r t. apply (derived_row_steps false).
Qed.
(** *** fetch_comet_data *)

Lemma coerce_column_rowwise df col :
  col ∈ columns df ->
  coerce_column df col
  = Ok (with_column col (fun r => Num (to_numeric (cell col r))) df).
Proof.
  intros Hc. unfold coerce_column, getitem.
  rewrite decide_True by exact Hc. cbn.
  now rewrite <- list_fmap_compose, setitem_fmap.
Qed.

Lemma for_each_coerce cols : forall df,
  Forall (fun c => c ∈ columns df) cols ->
  exists out,
    for_each coerce_column df cols = Ok out /\
    rows out = coerce_cells cols <$> rows df /\
    (forall c, c ∈ columns out <-> c ∈ columns df).
Proof.
  induction cols as [|col cols IH]; intros df Hcols.
  - exists df. repeat split; try tauto. cbn. now rewrite list_fmap_id.
  - apply Forall_cons in Hcols as [Hcol Hcols]. cbn.
    rewrite (coerce_column_rowwise _ _ Hcol). cbn.
    destruct (IH (with_column col (fun r => Num (to_numeric (cell col r))) df))
      as (out & Hout & Hrows & Hsame).
    { eapply Forall_impl; [exact Hcols|]. intros c Hc. cbn. set_solver. }
    exists out. split; [exact Hout|]. split.
    + rewrite Hrows. cbn. now rewrite <- list_fmap_compose.
    + intros c. rewrite Hsame. cbn.
      rewrite elem_of_union, elem_of_singleton.
      split; [intros [Hc| ->]; assumption | now left].
Qed.

Lemma coerce_cells_other cols : forall r c,
  c ∉ cols -> coerce_cells cols r !! c = r !! c.
Proof.
  induction cols as [|col cols IH]; intros r c Hc; [reflexivity|].
  apply not_elem_of_cons in Hc as [Hne Hc].
  change (coerce_cells (col :: cols) r)
    with (coerce_cells cols (<[col := Num (to_numeric (cell col r))]> r)).
  rewrite IH by exact Hc. now rewrite lookup_insert_ne.
Qed.

Lemma coerce_cells_converted cols : forall r c,
  NoDup cols -> c ∈ cols ->
  cell c (coerce_cells cols r) = Num (to_numeric (cell c r)).
Proof.
  induction cols as [|col cols IH]; intros r c Hnd Hc.
  - now apply elem_of_nil in Hc.
  - apply NoDup_cons in Hnd as [Hcol Hnd].
    change (coerce_cells (col :: cols) r)
      with (coerce_cells cols (<[col := Num (to_numeric (cell col r))]> r)).
    destruct (decide (c = col)) as [->|Hne].
    + unfold cell at 1. rewrite coerce_cells_other by exact Hcol.
      now rewrite lookup_insert_eq.
    + apply elem_of_cons in Hc as [Hc|Hc]; [contradiction|].
      rewrite IH by assumption. now rewrite cell_insert_ne.
Qed.

Lemma converted_columns_NoDup : NoDup converted_columns.
Proof. apply (bool_decide_unpack _). vm_compute. exact I. Qed.

End ScriptFacts.

(** ** The derivation, claim by claim *)

Section DerivationClaims.
Context `{Pandas}.
Implicit Types (r o : gmap string value) (d : frame).

Lemma derived_row_same_record ws r t : same_record r (derived_row ws r t).
Proof.
  intros c Hc. unfold derived_names in Hc.
  rewrite !not_elem_of_cons in Hc.
  destruct Hc as (?&?&?&?&?&?&?&_).
  unfold derived_row. destruct ws;
    repeat (rewrite lookup_insert_ne by congruence); reflexivity.
Qed.

Lemma mapM_datable (rs : list (gmap string value)) :
  Forall datable rs ->
  exists dates,
    mapM date_plus_days (num "epoch_tdb" <$> rs) = Ok dates /\
    Forall2 (fun r t => date_plus_days (num "epoch_tdb" r) = Ok t) rs dates.
Proof.
  induction 1 as [|r rs [t Ht] _ (dates & Hdates & Hall)].
  - exists []. split; [reflexivity|constructor].
  - exists (t :: dates). split; [|now constructor].
    cbn. rewrite Ht. cbn. now rewrite Hdates.
Qed.

Lemma mapM_result_length {A B} (f : A -> result B) (xs : list A) : forall ys,
  mapM f xs = Ok ys -> length ys = length xs.
Proof.
  induction xs as [|x xs IH]; intros ys Hys; cbn in Hys.
  - now injection Hys as <-.
  - destruct (f x) as [y|exn]; [|discriminate]. cbn in Hys.
    destruct (mapM f xs) as [ys'|exn]; [|discriminate]. cbn in Hys.
    injection Hys as <-. cbn. f_equal. now apply IH.
Qed.

Lemma Forall2_zip_with_diag {A B} (P : A -> A -> Prop) (g : A -> B -> A)
      (xs : list A) : forall ys : list B,
  length ys = length xs -> (forall x y, P x (g x y)) ->
  Forall2 P xs (zip_with g xs ys).
Proof.
  induction xs as [|x xs IH]; intros [|y ys] Hlen Hg; try discriminate;
    constructor; [apply Hg|].
  apply IH; [now injection Hlen | exact Hg].
Qed.

Lemma filter_in_mask_in_range (e_min e_max : R) (rs : list (gmap string value)) :
  filter (fun r => in_mask (Fin e_min) (Fin e_max) r) rs
  = filter (in_range e_min e_max) rs.
Proof. apply list_filter_iff. intros r. apply in_mask_in_range. Qed.

(** C5: the mask of line 110 keeps exactly the records whose eccentricity
    is defined and lies in the inclusive range, in the order of the input;
    a record with a missing eccentricity, or one outside the range, is not
    in the output.  The derivation then makes one output row of each kept
    record, in the same order, which carries the cells of the record. *)
Theorem eccentricity_filter d (e_min e_max : R) :
  float_column "e" d ->
  (exists kept,
     filter_eccentricity d (Fin e_min) (Fin e_max) = Ok kept /\
     columns kept = columns d /\
     rows kept = filter (in_range e_min e_max) (rows d) /\
     rows kept `sublist_of` rows d /\
     (forall r, r ∈ rows kept <-> r ∈ rows d /\ in_range e_min e_max r)) /\
  (numeric_frame d ->
   Forall datable (filter (in_range e_min e_max) (rows d)) ->
   forall (h : gmap loc frame) (input : loc),
     h !! input = Some d ->
     exists out,
       deriveAll input (Fin e_min) (Fin e_max) h
       = Ok (fresh (dom h), <[fresh (dom h) := out]> h) /\
       Forall2 same_record (filter (in_range e_min e_max) (rows d)) (rows out)).
Proof.
  intros He. split.
  - exists (Frame (columns d) (filter (in_range e_min e_max) (rows d))).
    rewrite (filter_eccentricity_rowwise _ _ _ He), filter_in_mask_in_range.
    split; [reflexivity|]. split; [reflexivity|]. split; [reflexivity|].
    split; [apply sublist_filter|].
    intros r. cbn. rewrite list_elem_of_filter. tauto.
  - intros Hd Hdat h input Hin.
    rewrite (deriveAll_functional _ _ _ _ _ Hin).
    rewrite (derive_frame_rowwise _ _ _ Hd), filter_in_mask_in_range. cbn zeta.
    destruct (mapM_datable _ Hdat) as (dates & -> & Hall).
    eexists. split; [reflexivity|]. cbn.
    induction Hall as [|r t rs dates _ _ IH]; constructor.
    + apply derived_row_same_record.
    + apply IH. now apply Forall_inv_tail in Hdat.
Qed.


Lemma for_each_app body df cols1 cols2 :
  for_each body df (cols1 ++ cols2)
  = (df' ← for_each body df cols1; for_each body df' cols2).
Proof.
  revert df. induction cols1 as [|c cols1 IH]; intros df; [reflexivity|].
  cbn. destruct (body df c) as [df'|exn]; [|reflexivity]. cbn. apply IH.
Qed.

Lemma fetch_comet_data_for_each resp :
  status_code resp = 200%Z ->
  fetch_comet_data resp
  = for_each coerce_column (DataFrame (json resp)) converted_columns.
Proof.
  intros Hstatus. unfold fetch_comet_data, converted_columns.
  rewrite decide_True by exact Hstatus. rewrite for_each_app.
  destruct (for_each coerce_column (DataFrame (json resp)) numeric_columns)
    as [df|exn]; [|reflexivity].
  cbn. now destruct (coerce_column df "epoch_tdb").
Qed.



(** C9: a run of the derivation reads the store only at its input table
    and the result is a function of that table and of the range alone: two
    runs on the same table and range, in whatever stores, both raise or
    return equal tables, rows in the same order; one that returns leaves
    every object the store had, the input table among them, as it was, its
    output being a new object; and the rows of the output follow the order
    of the input rows they come from. *)
Theorem deriveAll_deterministic (h1 h2 : gmap loc frame) (in1 in2 : loc) d
        (e_min e_max : f64) :
  h1 !! in1 = Some d -> h2 !! in2 = Some d ->
  returned_table (deriveAll in1 e_min e_max h1)
  = returned_table (deriveAll in2 e_min e_max h2) /\
  (forall l h',
     deriveAll in1 e_min e_max h1 = Ok (l, h') ->
     h1 !! l = None /\
     (forall l0, l0 ≠ l -> h' !! l0 = h1 !! l0) /\
     h' !! in1 = Some d /\
     returned_table (deriveAll in1 e_min e_max h') = Ok (h' !! l)) /\
  (numeric_frame d ->
   forall out,
     returned_table (deriveAll in1 e_min e_max h1) = Ok (Some out) ->
     let kept := filter (fun r => in_mask e_min e_max r) (rows d) in
     kept `sublist_of` rows d /\ Forall2 same_record kept (rows out)).
Proof.
  intros Hin1 Hin2.
  rewrite (deriveAll_functional _ _ _ _ _ Hin1),
    (deriveAll_functional _ _ _ _ _ Hin2).
  split; [|split].
  - destruct (derive_frame d e_min e_max) as [out|exn]; [|reflexivity].
    cbn. now rewrite !lookup_insert_eq.
  - intros l h' Hrun.
    destruct (derive_frame d e_min e_max) as [out|exn] eqn:Hout;
      [|discriminate].
    cbn in Hrun. injection Hrun as <- <-.
    assert (Hfresh : h1 !! fresh (dom h1) = None)
      by apply not_elem_of_dom, is_fresh.
    assert (Hne : fresh (dom h1) ≠ in1) by (intros Heq; congruence).
    split; [exact Hfresh|]. split; [|split].
    + intros l0 Hl0. now rewrite lookup_insert_ne.
    + rewrite lookup_insert_ne by exact Hne. exact Hin1.
    + rewrite (deriveAll_functional _ _ d)
        by (rewrite lookup_insert_ne by exact Hne; exact Hin1).
      rewrite Hout. cbn. now rewrite !lookup_insert_eq.
  - intros Hd out Hrun kept. split; [apply sublist_filter|].
    rewrite (derive_frame_rowwise _ _ _ Hd) in Hrun. cbn zeta in Hrun.
    fold kept in Hrun.
    destruct (mapM date_plus_days (num "epoch_tdb" <$> kept)) as [dates|exn] eqn:Hdates;
      [|discriminate].
    cbn in Hrun. rewrite lookup_insert_eq in Hrun. injection Hrun as <-. cbn.
    apply Forall2_zip_with_diag.
    + rewrite (mapM_result_length _ _ _ Hdates). apply length_fmap.
    + intros r t. apply derived_row_same_record.
Qed.
End DerivationClaims.

(** ** The derivation on the filter scenario *)

Lemma comet_row_float c name e q i w node epoch :
  c ∈ ["e"; "q_au_1"; "i_deg"; "w_deg"; "node_deg"; "epoch_tdb"] ->
  float_cell c (comet_row name e q i w node epoch).
Proof.
  rewrite !elem_of_cons, elem_of_nil.
  intros [->|[->|[->|[->|[->|[->|[]]]]]]]; eexists; reflexivity.
Qed.

Lemma scenario_numeric : numeric_frame scenario.
Proof.
  repeat split; try (apply (bool_decide_unpack _); vm_compute; exact I);
    cbn; repeat constructor; apply comet_row_float;
    rewrite !elem_of_cons; tauto.
Qed.

Lemma in_range_comet_row (e_min e_max x : R) name q i w node epoch :
  in_range e_min e_max (comet_row name (Fin x) q i w node epoch)
  <-> e_min <= x <= e_max.
Proof. reflexivity. Qed.

Lemma scenario_kept :
  filter (in_range 0 1) (rows scenario)
  = [comet_row "A" (Fin 0.1) (Fin 1) (Fin 10) (Fin 50) (Fin 100) (Fin 0);
     comet_row "B" (Fin 0.5) (Fin 1) (Fin 10) (Fin 50) (Fin 100) (Fin 0)].
Proof.
  unfold scenario. cbn [rows].
  rewrite filter_cons_True by (apply in_range_comet_row; lra).
  rewrite filter_cons_True by (apply in_range_comet_row; lra).
  rewrite filter_cons_False by (rewrite in_range_comet_row; lra).
  rewrite filter_cons_False by (intros []).
  reflexivity.
Qed.

Lemma scenario_datable :
  Forall (@datable example_pandas) (filter (in_range 0 1) (rows scenario)).
Proof.
  rewrite scenario_kept. repeat constructor; eexists; reflexivity.
Qed.

Lemma eccentricity_filter_witness :
  float_column "e" scenario /\
  (exists kept,
     filter_eccentricity scenario (Fin 0) (Fin 1) = Ok kept /\
     rows kept
     = [comet_row "A" (Fin 0.1) (Fin 1) (Fin 10) (Fin 50) (Fin 100) (Fin 0);
        comet_row "B" (Fin 0.5) (Fin 1) (Fin 10) (Fin 50) (Fin 100) (Fin 0)]) /\
  (exists out,
     @deriveAll example_pandas 1%positive (Fin 0) (Fin 1) {[1%positive := scenario]}
     = Ok (fresh (dom ({[1%positive := scenario]} : gmap loc frame)),
           <[fresh (dom ({[1%positive := scenario]} : gmap loc frame)) := out]>
             {[1%positive := scenario]}) /\
     length (rows out) = 2%nat).
Proof.
  pose proof scenario_numeric as Hnum.
  pose proof (proj1 Hnum) as He.
  destruct (@eccentricity_filter example_pandas scenario 0 1 He)
    as [(kept & Hkept & _ & Hrows & _) Hderive].
  split; [exact He|]. split.
  - exists kept. split; [exact Hkept|]. rewrite Hrows. exact scenario_kept.
  - destruct (Hderive Hnum scenario_datable {[1%positive := scenario]} 1%positive)
      as (out & Hout & Hsame); [apply lookup_singleton_eq|].
    exists out. split; [exact Hout|].
    apply Forall2_length in Hsame. rewrite <- Hsame, scenario_kept. reflexivity.
Defined.

Lemma example_json_columns :
  Forall (fun c => c ∈ columns (DataFrame [example_record; example_record_with_period]))
         (@converted_columns).
Proof.
  apply (bool_decide_unpack _). vm_compute. exact I.
Qed.

Lemma scenario_kept_mask :
  filter (fun r => in_mask (Fin 0) (Fin 1) r) (rows scenario)
  = filter (in_range 0 1) (rows scenario).
Proof. apply filter_in_mask_in_range. Qed.


Lemma deriveAll_deterministic_witness :
  @returned_table (@deriveAll example_pandas 1%positive (Fin 0) (Fin 1)
                              {[1%positive := scenario]})
  = @returned_table (@deriveAll example_pandas 2%positive (Fin 0) (Fin 1)
                                {[2%positive := scenario; 5%positive := scenario]}).
Proof.
  refine (proj1 (@deriveAll_deterministic example_pandas
                   {[1%positive := scenario]}
                   {[2%positive := scenario; 5%positive := scenario]}
                   1%positive 2%positive scenario (Fin 0) (Fin 1) _ _)).
  - apply lookup_singleton_eq.
  - apply lookup_insert_eq.
Defined.

(** ** The sampled orbit *)

Section LinspaceFacts.
Variables (start stop : R) (num : nat).

Lemma length_linspace : length (linspace start stop num) = num.
Proof.
  unfold linspace. destruct (decide (1 < num)%nat);
    rewrite ?length_insert, length_fmap, length_seq; reflexivity.
Qed.

Lemma lookup_linspace_lt (k : nat) :
  (k < num - 1)%nat ->
  linspace start stop num !! k
  = Some (Fin (INR k * ((stop - start) / INR (num - 1)) + start)).
Proof.
  intros Hk. unfold linspace.
  assert (Hseq : seq 0 num !! k = Some k) by (apply lookup_seq_lt; lia).
  destruct (decide (1 < num)%nat).
  - rewrite list_lookup_insert_ne by lia.
    now rewrite list_lookup_fmap, Hseq.
  - lia.
Qed.

Lemma lookup_linspace_last :
  (1 < num)%nat -> linspace start stop num !! (num - 1)%nat = Some (Fin stop).
Proof.
  intros Hnum. unfold linspace. rewrite decide_True by exact Hnum.
  apply list_lookup_insert_eq. rewrite length_fmap, length_seq. lia.
Qed.
End LinspaceFacts.

Lemma length_theta : length theta = 1000%nat.
Proof. apply length_linspace. Qed.

Lemma INR_999 : INR (1000 - 1) = 999.
Proof. rewrite INR_IZR_INZ. reflexivity. Qed.

Lemma lookup_theta (k : nat) :
  (k < 1000)%nat -> theta !! k = Some (Fin (INR k * (2 * PI / 999))).
Proof.
  intros Hk. unfold theta.
  destruct (decide (k = 999%nat)) as [->|Hne].
  - change 999%nat with (1000 - 1)%nat.
    rewrite lookup_linspace_last by lia. do 2 f_equal.
    rewrite INR_999. field.
  - rewrite lookup_linspace_lt by lia. do 2 f_equal.
    rewrite INR_999. field.
Qed.

Lemma theta_first : theta !! 0%nat = Some (Fin 0).
Proof. rewrite lookup_theta by lia. do 2 f_equal. cbn. lra. Qed.

Lemma theta_last : theta !! 999%nat = Some (Fin (2 * PI)).
Proof. apply (lookup_linspace_last 0 (2 * PI) 1000). lia. Qed.

Lemma length_orbit_r a e : length (orbit_r a e) = 1000%nat.
Proof. unfold orbit_r. now rewrite length_fmap, length_theta. Qed.

Lemma length_orbit_x a e i w node : length (orbit_x a e i w node) = 1000%nat.
Proof.
  unfold orbit_x. rewrite length_zip_with, length_orbit_r, length_theta. lia.
Qed.

Lemma length_orbit_y a e i w node : length (orbit_y a e i w node) = 1000%nat.
Proof.
  unfold orbit_y. rewrite length_zip_with, length_orbit_r, length_theta. lia.
Qed.

Lemma length_orbit_z a e i w : length (orbit_z a e i w) = 1000%nat.
Proof.
  unfold orbit_z. rewrite length_zip_with, length_orbit_r, length_theta. lia.
Qed.

Lemma length_orbit_points a e i w node :
  length (orbit_points a e i w node) = 1000%nat.
Proof.
  unfold orbit_points.
  rewrite !length_zip_with, length_orbit_x, length_orbit_y, length_orbit_z. lia.
Qed.








(** C7, at the last sample: the angle of the last of the 1000 points is
    2 pi itself, and the step between two samples is 2 pi / 999; so the
    angles do not all lie in the half-open range from 0 to 2 pi. *)
Lemma theta_reaches_2PI :
  theta !! 999%nat = Some (Fin (2 * PI)) /\
  theta !! 1%nat = Some (Fin (2 * PI / 999)) /\
  ~ Forall (fun th => exists x : R, th = Fin x /\ 0 <= x < 2 * PI) theta.
Proof.
  split; [exact theta_last|]. split.
  - rewrite lookup_theta by lia. do 2 f_equal. cbn. lra.
  - intros Hall. rewrite Forall_lookup in Hall.
    destruct (Hall 999%nat _ theta_last) as (x & Hx & _ & Hlt).
    injection Hx as <-. lra.
Qed.

(** C7, as the code has it: the path has exactly 1000 points, whatever the
    elements; the angles are the 1000 multiples [k * 2 pi / 999],
    [k = 0 .. 999], evenly spaced over the closed range from 0 to 2 pi, both
    0 and 2 pi included. *)
Theorem orbit_sampling (a e i w node : f64) :
  length theta = 1000%nat /\
  (forall k : nat,
     (k < 1000)%nat -> theta !! k = Some (Fin (INR k * (2 * PI / 999)))) /\
  theta !! 0%nat = Some (Fin 0) /\
  theta !! 999%nat = Some (Fin (2 * PI)) /\
  length (orbit_x a e i w node) = 1000%nat /\
  length (orbit_y a e i w node) = 1000%nat /\
  length (orbit_z a e i w) = 1000%nat /\
  length (orbit_points a e i w node) = 1000%nat.
Proof.
  split; [exact length_theta|]. split; [exact lookup_theta|].
  split; [exact theta_first|]. split; [exact theta_last|].
  split; [apply length_orbit_x|]. split; [apply length_orbit_y|].
  split; [apply length_orbit_z | apply length_orbit_points].
Qed.

Lemma orbit_sampling_witness :
  theta !! 500%nat = Some (Fin (INR 500 * (2 * PI / 999))).
Proof.
  refine (proj1 (proj2 (orbit_sampling (Fin 2) (Fin (1 / 2)) (Fin 10) (Fin 50) (Fin 100)))
            500%nat _).
  lia.
Defined.

(** ** The orbit of an unbound comet *)











(** * Further properties of the script *)

(** ** The derived quantities *)















(** ** The eccentricity range and the period filter *)












Lemma filter_ext_Forall {A} (P Q : A -> Prop)
      `{!forall x, Decision (P x), !forall x, Decision (Q x)} (xs : list A) :
  Forall (fun x => P x <-> Q x) xs -> filter P xs = filter Q xs.
Proof.
  induction 1 as [|x xs Hx _ IH]; [reflexivity|].
  rewrite !filter_cons, IH.
  destruct (decide (P x)), (decide (Q x)); tauto.
Qed.



(** X6: narrowing the range of line 110 only removes rows: when
    [e_min <= e_min'] and [e_max' <= e_max] the rows kept for the narrower
    range are, in order, among those kept for the wider one; and a range
    whose lower end is above its upper end keeps no row. *)
Theorem narrower_range_keeps_fewer (df : frame) (e_min e_max e_min' e_max' : R) :
  float_column "e" df -> e_min <= e_min' -> e_max' <= e_max ->
  exists wide narrow,
    filter_eccentricity df (Fin e_min) (Fin e_max) = Ok wide /\
    filter_eccentricity df (Fin e_min') (Fin e_max') = Ok narrow /\
    rows narrow `sublist_of` rows wide /\
    (e_max' < e_min' -> rows narrow = []).
Proof.
  intros He Hlo Hhi.
  rewrite !(filter_eccentricity_rowwise _ _ _ He), !filter_in_mask_in_range.
  do 2 eexists. split; [reflexivity|]. split; [reflexivity|]. cbn [rows]. split.
  - rewrite <- (list_filter_filter_l (in_range e_min' e_max') (in_range e_min e_max)).
    + apply sublist_filter.
    + intros r. unfold in_range. destruct (num "e" r); try tauto. lra.
  - intros Hempty. induction (rows df) as [|r rs IH]; [reflexivity|].
    rewrite filter_cons_False; [exact IH|].
    unfold in_range. destruct (num "e" r); try tauto. lra.
Qed.

Lemma narrower_range_keeps_fewer_witness :
  exists wide narrow,
    filter_eccentricity scenario (Fin 0) (Fin 1) = Ok wide /\
    filter_eccentricity scenario (Fin 0.3) (Fin 0.8) = Ok narrow /\
    rows narrow `sublist_of` rows wide.
Proof.
  destruct (narrower_range_keeps_fewer scenario 0 1 0.3 0.8
              (proj1 scenario_numeric)) as (wide & narrow & Hw & Hn & Hsub & _);
    try lra.
  exists wide, narrow. split; [exact Hw|]. split; [exact Hn|]. exact Hsub.
Defined.

(** ** The comets with a period *)

Lemma notna_float (x : f64) : notna (Num x) = true <-> x <> NaN.
Proof. destruct x; cbn; split; congruence. Qed.

Lemma positive_is_notna (x : f64) : (x >? Fin 0)%f64 = true -> notna (Num x) = true.
Proof. now destruct x. Qed.

(** X7: the table of line 161 holds, in order, exactly the rows whose period
    is greater than zero (the test [notna()] removes no row the comparison
    keeps); every row of it holds a period that is not NaN and is positive;
    and it has at most as many rows as the count of valid periods of line
    270, which is at most the number of rows of the table. *)
Theorem df_period_positive (df : frame) :
  float_column "p_yr" df ->
  exists periodic valid,
    df_period df = Ok periodic /\
    valid_periods df = Ok valid /\
    columns periodic = columns df /\
    rows periodic = filter (fun r => (num "p_yr" r >? Fin 0)%f64) (rows df) /\
    Forall (fun r => num "p_yr" r <> NaN /\ (Fin 0 <? num "p_yr" r)%f64 = true)
           (rows periodic) /\
    (length (rows periodic) <= valid <= length (rows df))%nat.
Proof.
  intros Hp. pose proof Hp as [Hc Hrows]. unfold df_period, valid_periods.
  rewrite (floats_float_column _ _ Hp). unfold getitem.
  rewrite decide_True by exact Hc. cbn [mbind result_bind].
  rewrite zip_with_fmap_l, zip_with_fmap_r.
  rewrite <- (list_fmap_compose (cell "p_yr") notna).
  rewrite (zip_with_fmap_l _ (cell "p_yr")), (zip_with_fmap_r _ (num "p_yr")).
  rewrite zip_with_diag, !boolean_index_fmap.
  do 2 eexists. split; [reflexivity|]. split; [reflexivity|].
  split; [reflexivity|]. cbn [rows].
  assert (Hsame :
    filter (fun r => notna (cell "p_yr" r) && (num "p_yr" r >? Fin 0)%f64) (rows df)
    = filter (fun r => (num "p_yr" r >? Fin 0)%f64) (rows df)).
  { apply filter_ext_Forall, Forall_forall. intros r Hr.
    rewrite Forall_forall in Hrows. rewrite (float_cell_num _ _ (Hrows r Hr)).
    rewrite andb_True. split; [tauto|]. intros Hpos. split; [|exact Hpos].
    apply Is_true_true, positive_is_notna, Is_true_true, Hpos. }
  split; [exact Hsame|]. split.
  - rewrite Hsame. apply Forall_forall. intros r [Hpos _]%list_elem_of_filter.
    apply Is_true_true in Hpos. split; [|exact Hpos].
    apply notna_float, positive_is_notna, Hpos.
  - split; [|apply length_filter].
    rewrite Hsame.
    rewrite <- (list_filter_filter_l (fun r => (num "p_yr" r >? Fin 0)%f64)
                  (fun r => notna (cell "p_yr" r))).
    + apply length_filter.
    + intros r Hpos. apply Is_true_true in Hpos.
      unfold fgt in Hpos. unfold num in Hpos.
      destruct (cell "p_yr" r) as [s|[| | |x]|t]; cbn in *;
        try exact I; congruence.
Qed.

Lemma period_table_float : float_column "p_yr" period_table.
Proof.
  split; [apply (bool_decide_unpack _); vm_compute; exact I|].
  cbn. repeat constructor; eexists; reflexivity.
Qed.

Lemma df_period_positive_witness :
  exists periodic,
    df_period period_table = Ok periodic /\
    rows periodic = [<["object" := Str "A"]> (<["p_yr" := Num (Fin 5)]> ∅)].
Proof.
  destruct (df_period_positive period_table period_table_float)
    as (periodic & valid & Hperiodic & _ & _ & Hrows & _).
  exists periodic. split; [exact Hperiodic|].
  rewrite Hrows. unfold period_table. cbn [rows].
  rewrite filter_cons_True
    by (apply Is_true_true; change (Rltb 0 5 = true); apply Rltb_true; lra).
  rewrite filter_cons_False by (intros []).
  rewrite filter_cons_False
    by (intros Hpos; apply Is_true_true in Hpos;
        change (Rltb 0 0 = true) in Hpos; apply Rltb_true in Hpos; lra).
  reflexivity.
Defined.

(** ** Loading the table *)

Section LoadingFacts.
Context `{Pandas}.

Lemma coerce_column_missing df col :
  col ∉ columns df -> coerce_column df col = Raise "KeyError".
Proof.
  intros Hcol. unfold coerce_column, getitem. now rewrite decide_False.
Qed.

Lemma for_each_coerce_missing cols : forall df c,
  c ∈ cols -> c ∉ columns df ->
  for_each coerce_column df cols = Raise "KeyError".
Proof.
  induction cols as [|col cols IH]; intros df c Hc Hmiss.
  - now apply elem_of_nil in Hc.
  - cbn. destruct (decide (col ∈ columns df)) as [Hcol|Hcol].
    + rewrite (coerce_column_rowwise _ _ Hcol). cbn.
      apply elem_of_cons in Hc as [->|Hc]; [contradiction|].
      apply (IH _ c Hc). cbn.
      rewrite elem_of_union, elem_of_singleton. intros [Hin| ->]; contradiction.
    + now rewrite (coerce_column_missing _ _ Hcol).
Qed.

(** X8: what [fetch_comet_data] does when it cannot load: on any status
    other than 200 it returns the empty table, no rows and no columns; on
    status 200 it raises [KeyError] as soon as one of the nine columns it
    converts is in none of the records, which is the case of an empty list
    of records. *)
Theorem fetch_comet_data_failures (resp : response) :
  (status_code resp <> 200%Z -> fetch_comet_data resp = Ok (Frame ∅ [])) /\
  (status_code resp = 200%Z ->
   forall c, c ∈ converted_columns -> c ∉ columns (DataFrame (json resp)) ->
   fetch_comet_data resp = Raise "KeyError") /\
  (status_code resp = 200%Z -> json resp = [] ->
   fetch_comet_data resp = Raise "KeyError").
Proof.
  split; [|split].
  - intros Hstatus. unfold fetch_comet_data. now rewrite decide_False.
  - intros Hstatus c Hc Hmiss. rewrite (fetch_comet_data_for_each _ Hstatus).
    now apply (for_each_coerce_missing _ _ c).
  - intros Hstatus Hjson. rewrite (fetch_comet_data_for_each _ Hstatus).
    apply (for_each_coerce_missing _ _ "e").
    + apply (bool_decide_unpack _). vm_compute. exact I.
    + rewrite Hjson. cbn. apply not_elem_of_empty.
Qed.

Lemma coerce_cells_lookup cols : forall r c,
  NoDup cols -> c ∈ cols ->
  coerce_cells cols r !! c = Some (Num (to_numeric (cell c r))).
Proof.
  induction cols as [|col cols IH]; intros r c Hnd Hc.
  - now apply elem_of_nil in Hc.
  - apply NoDup_cons in Hnd as [Hcol Hnd].
    change (coerce_cells (col :: cols) r)
      with (coerce_cells cols (<[col := Num (to_numeric (cell col r))]> r)).
    destruct (decide (c = col)) as [->|Hne].
    + rewrite coerce_cells_other by exact Hcol. apply lookup_insert_eq.
    + apply elem_of_cons in Hc as [Hc|Hc]; [contradiction|].
      rewrite IH by assumption. now rewrite cell_insert_ne.
Qed.

Lemma coerce_cells_idempotent cols r :
  NoDup cols -> coerce_cells cols (coerce_cells cols r) = coerce_cells cols r.
Proof.
  intros Hnd. apply map_eq. intros c.
  destruct (decide (c ∈ cols)) as [Hc|Hc].
  - rewrite !coerce_cells_lookup by assumption.
    now rewrite (coerce_cells_converted _ r c Hnd Hc).
  - now rewrite !coerce_cells_other by exact Hc.
Qed.

(** X9: the conversion of lines 89 to 92 is idempotent: run again on the
    table it has produced, the loop returns and leaves every row as it is
    (a converted cell is a float, and [pd.to_numeric] leaves floats alone). *)
Theorem conversion_is_idempotent (df converted : frame) :
  for_each coerce_column df converted_columns = Ok converted ->
  exists again,
    for_each coerce_column converted converted_columns = Ok again /\
    rows again = rows converted /\
    (forall c, c ∈ columns again <-> c ∈ columns converted).
Proof.
  intros Hfirst.
  assert (Hcols : Forall (fun c => c ∈ columns df) converted_columns).
  { apply Forall_forall. intros c Hc.
    destruct (decide (c ∈ columns df)) as [Hin|Hout]; [exact Hin|].
    rewrite (for_each_coerce_missing _ _ c Hc Hout) in Hfirst. discriminate. }
  destruct (for_each_coerce _ _ Hcols) as (out & Hout & Hrows & Hsame).
  rewrite Hout in Hfirst. injection Hfirst as <-.
  assert (Hcols' : Forall (fun c => c ∈ columns out) converted_columns).
  { eapply Forall_impl; [exact Hcols|]. intros c Hc. now apply Hsame. }
  destruct (for_each_coerce _ _ Hcols') as (again & Hagain & Hrows' & Hsame').
  exists again. split; [exact Hagain|]. split; [|exact Hsame'].
  rewrite Hrows', Hrows, <- list_fmap_compose.
  apply list_fmap_ext. intros _ r _.
  exact (coerce_cells_idempotent converted_columns r converted_columns_NoDup).
Qed.
End LoadingFacts.

Lemma fetch_comet_data_failures_witness :
  @fetch_comet_data example_pandas (Response 404 []) = Ok (Frame ∅ []) /\
  @fetch_comet_data example_pandas (Response 200 []) = Raise "KeyError".
Proof.
  split.
  - refine (proj1 (@fetch_comet_data_failures example_pandas (Response 404 [])) _).
    discriminate.
  - exact (proj2 (proj2 (@fetch_comet_data_failures example_pandas (Response 200 [])))
             eq_refl eq_refl).
Defined.

Lemma conversion_is_idempotent_witness :
  exists converted again,
    for_each (@coerce_column example_pandas)
             (DataFrame [example_record; example_record_with_period])
             (@converted_columns) = Ok converted /\
    for_each (@coerce_column example_pandas) converted (@converted_columns)
    = Ok again /\
    rows again = rows converted.
Proof.
  destruct (@for_each_coerce example_pandas _ _ example_json_columns)
    as (converted & Hconverted & _).
  destruct (@conversion_is_idempotent example_pandas _ _ Hconverted)
    as (again & Hagain & Hrows & _).
  exists converted, again. split; [exact Hconverted|]. split; [exact Hagain|].
  exact Hrows.
Defined.

(** ** When the derivation raises *)

Section RaisingFacts.
Context `{Pandas}.

Lemma floats_missing_column df c :
  c ∉ columns df -> floats df c = Raise "KeyError".
Proof. intros Hc. unfold floats, getitem. now rewrite decide_False. Qed.

Lemma mapM_as_float_string (vs : list value) :
  ~ Forall (fun v => exists x, v = Num x) vs ->
  mapM as_float vs = Raise "TypeError".
Proof.
  induction vs as [|v vs IH]; intros Hbad.
  - destruct Hbad. constructor.
  - cbn. destruct v as [s|x|t]; try reflexivity. cbn.
    rewrite IH; [reflexivity|].
    intros Hall. apply Hbad. constructor; [now exists x | exact Hall].
Qed.

Lemma floats_not_float df c :
  c ∈ columns df -> ~ Forall (float_cell c) (rows df) ->
  floats df c = Raise "TypeError".
Proof.
  intros Hc Hbad. unfold floats, getitem. rewrite decide_True by exact Hc.
  cbn. apply mapM_as_float_string. intros Hall. apply Hbad.
  apply Forall_forall. intros r Hr. rewrite Forall_forall in Hall.
  apply (Hall (cell c r)). now apply list_elem_of_fmap_2.
Qed.

Lemma mapM_dates_datable (rs : list (gmap string value)) : forall dates,
  mapM date_plus_days (num "epoch_tdb" <$> rs) = Ok dates -> Forall datable rs.
Proof.
  induction rs as [|r rs IH]; intros dates Hdates; [constructor|].
  cbn in Hdates.
  destruct (date_plus_days (num "epoch_tdb" r)) as [t|exn] eqn:Ht; [|discriminate].
  cbn in Hdates.
  destruct (mapM date_plus_days (num "epoch_tdb" <$> rs)) as [ts|exn] eqn:Hts;
    [|discriminate].
  constructor; [now exists t | now apply (IH ts)].
Qed.

(** X10: when the derivation of lines 110 to 118 raises.  On a table
    without a column [e] it raises [KeyError]; on a table whose column [e]
    still holds a cell that is not a float (the table was not converted) it
    raises [TypeError]; on a table with float columns it returns exactly
    when the discovery date of every row that passes the filter can be
    computed: a row the filter drops never makes it raise. *)
Theorem deriveAll_raises (h : gmap loc frame) (input : loc) (d : frame)
        (e_min e_max : f64) :
  h !! input = Some d ->
  ("e" ∉ columns d -> deriveAll input e_min e_max h = Raise "KeyError") /\
  ("e" ∈ columns d -> ~ Forall (float_cell "e") (rows d) ->
   deriveAll input e_min e_max h = Raise "TypeError") /\
  (numeric_frame d ->
   (exists l h', deriveAll input e_min e_max h = Ok (l, h'))
   <-> Forall datable (filter (fun r => in_mask e_min e_max r) (rows d))).
Proof.
  intros Hin. rewrite (deriveAll_functional _ _ _ _ _ Hin).
  split; [|split].
  - intros Hmiss. unfold derive_frame, filter_eccentricity.
    now rewrite (floats_missing_column _ _ Hmiss).
  - intros Hc Hbad. unfold derive_frame, filter_eccentricity.
    now rewrite (floats_not_float _ _ Hc Hbad).
  - intros Hd. rewrite (derive_frame_rowwise _ _ _ Hd). cbn zeta.
    destruct (mapM date_plus_days _) as [dates|exn] eqn:Hdates; cbn.
    + split; [intros _; now apply (mapM_dates_datable _ dates)|].
      intros _. now do 2 eexists.
    + split; [intros (l & h' & Hrun); discriminate|].
      intros Hdat. destruct (mapM_datable _ Hdat) as (dates & Hok & _).
      rewrite Hok in Hdates. discriminate.
Qed.
End RaisingFacts.

Lemma deriveAll_raises_witness :
  @deriveAll example_pandas 1%positive (Fin 0) (Fin 1)
             {[1%positive := Frame ∅ []]} = Raise "KeyError" /\
  @deriveAll example_pandas 1%positive (Fin 0) (Fin 1)
             {[1%positive := DataFrame [example_record]]} = Raise "TypeError" /\
  exists l h',
    @deriveAll example_pandas 1%positive (Fin 0) (Fin 1) {[1%positive := scenario]}
    = Ok (l, h').
Proof.
  split; [|split].
  - refine (proj1 (@deriveAll_raises example_pandas _ 1%positive (Frame ∅ [])
                     (Fin 0) (Fin 1) _) _).
    + apply lookup_singleton_eq.
    + apply not_elem_of_empty.
  - refine (proj1 (proj2 (@deriveAll_raises example_pandas _ 1%positive
                            (DataFrame [example_record]) (Fin 0) (Fin 1) _)) _ _).
    + apply lookup_singleton_eq.
    + apply (bool_decide_unpack _). vm_compute. exact I.
    + intros Hall. apply Forall_inv in Hall. destruct Hall as [x Hx].
      discriminate.
  - refine (proj2 (proj2 (proj2 (@deriveAll_raises example_pandas _ 1%positive
                            scenario (Fin 0) (Fin 1) _)) scenario_numeric) _).
    + apply lookup_singleton_eq.
    + rewrite scenario_kept_mask. exact scenario_datable.
Defined.

(** ** The shape of the sampled orbit *)







(** ** The selected comets *)

Lemma is_named_true comet v : is_named comet v = true <-> v = Str comet.
Proof.
  destruct v as [s| |]; simpl; try (split; [discriminate|congruence]).
  rewrite bool_decide_eq_true. split; [now intros ->|congruence].
Qed.

Lemma is_named_false comet v : is_named comet v = false <-> v <> Str comet.
Proof.
  rewrite <- is_named_true. destruct (is_named comet v); split; congruence.
Qed.

(** The first element a filter keeps, and what stands before it. *)
Lemma filter_first {A} (f : A -> bool) (xs : list A) :
  match filter (fun x => f x) xs with
  | [] => Forall (fun x => f x = false) xs
  | y :: _ =>
      exists before after,
        xs = before ++ y :: after /\ f y = true /\
        Forall (fun x => f x = false) before
  end.
Proof.
  induction xs as [|x xs IH]; [constructor|].
  rewrite filter_cons. destruct (f x) eqn:Hx; simpl.
  - exists [], xs. repeat split; [exact Hx|constructor].
  - destruct (filter (fun x => f x) xs) as [|y ys].
    + constructor; assumption.
    + destruct IH as (before & after & -> & Hy & Hbefore).
      exists (x :: before), after. repeat split; [exact Hy|].
      constructor; assumption.
Qed.

Lemma boolean_index_cells df (f : value -> bool) (c : string) :
  boolean_index df (f <$> (cell c <$> rows df))
  = Frame (columns df) (filter (fun r => f (cell c r)) (rows df)).
Proof.
  rewrite <- list_fmap_compose. exact (boolean_index_fmap df (f ∘ cell c)).
Qed.

Lemma select_comet_filter df comet :
  "object" ∈ columns df ->
  select_comet df comet
  = match filter (fun r => is_named comet (cell "object" r)) (rows df) with
    | comet_data :: _ => Ok comet_data
    | [] => Raise "IndexError"
    end.
Proof.
  intros Hc. unfold select_comet, getitem.
  destruct (decide ("object" ∈ columns df)) as [_|Hno]; [|contradiction].
  unfold mbind, result_bind. now rewrite boolean_index_cells.
Qed.

Lemma select_comet_cases df comet :
  "object" ∈ columns df ->
  (exists before comet_data after,
     rows df = before ++ comet_data :: after /\
     cell "object" comet_data = Str comet /\
     Forall (fun r => cell "object" r <> Str comet) before /\
     select_comet df comet = Ok comet_data) \/
  (Forall (fun r => cell "object" r <> Str comet) (rows df) /\
   select_comet df comet = Raise "IndexError").
Proof.
  intros Hc. rewrite (select_comet_filter _ _ Hc).
  pose proof (filter_first (fun r => is_named comet (cell "object" r)) (rows df))
    as Hfirst.
  destruct (filter _ (rows df)) as [|comet_data kept].
  - right. split; [|reflexivity].
    eapply Forall_impl; [exact Hfirst|]. intros r. now rewrite is_named_false.
  - left. destruct Hfirst as (before & after & Hrows & Hname & Hbefore).
    exists before, comet_data, after. split; [exact Hrows|].
    split; [now apply is_named_true|]. split; [|reflexivity].
    eapply Forall_impl; [exact Hbefore|]. intros r. now rewrite is_named_false.
Qed.

Lemma offered_not_all comet (rs : list (gmap string value)) :
  Str comet ∈ cell "object" <$> rs ->
  Forall (fun r => cell "object" r <> Str comet) rs -> False.
Proof.
  intros (r & Hname & Hr)%list_elem_of_fmap Hall.
  rewrite Forall_forall in Hall. now apply (Hall r Hr).
Qed.

(** X13: [df_filtered[df_filtered['object'] == comet].iloc[0]] (lines 207,
    250 and 299) takes the first row of the table that bears the name: a
    name among those the selection box offers gives the first row whose
    [object] is that name, whatever rows follow it; a name that no row bears
    (any name at all, on a table without rows) raises [IndexError]; and
    without the column [object] the comparison raises [KeyError]. *)
Theorem select_comet_first_match (df : frame) (comet : string) :
  ("object" ∉ columns df -> select_comet df comet = Raise "KeyError") /\
  ("object" ∈ columns df ->
   (Str comet ∈ cell "object" <$> rows df ->
    exists before comet_data after,
      rows df = before ++ comet_data :: after /\
      cell "object" comet_data = Str comet /\
      Forall (fun r => cell "object" r <> Str comet) before /\
      select_comet df comet = Ok comet_data) /\
   (Str comet ∉ cell "object" <$> rows df ->
    select_comet df comet = Raise "IndexError") /\
   (rows df = [] -> select_comet df comet = Raise "IndexError")).
Proof.
  split.
  - intros Hno. unfold select_comet, getitem.
    destruct (decide ("object" ∈ columns df)); [contradiction|reflexivity].
  - intros Hc. destruct (select_comet_cases df comet Hc)
      as [(before & comet_data & after & Hrows & Hname & Hbefore & Hrun)
         |[Hnone Hrun]].
    + split; [|split].
      * intros _. now exists before, comet_data, after.
      * intros Hnot. exfalso. apply Hnot. rewrite Hrows, fmap_app, fmap_cons.
        rewrite elem_of_app, elem_of_cons. right. left. now rewrite Hname.
      * intros Hempty. rewrite Hempty in Hrows. now destruct before.
    + split; [|split]; [|intros _; exact Hrun|intros _; exact Hrun].
      intros Hin. destruct (offered_not_all _ _ Hin Hnone).
Qed.

Lemma orbit_table_object : "object" ∈ columns orbit_table.
Proof. apply (bool_decide_unpack _). vm_compute. exact I. Qed.

Lemma select_comet_first_match_witness :
  exists before comet_data after,
    rows orbit_table = before ++ comet_data :: after /\
    cell "object" comet_data = Str "B" /\
    Forall (fun r => cell "object" r <> Str "B") before /\
    select_comet orbit_table "B" = Ok comet_data.
Proof.
  apply (proj1 (proj2 (select_comet_first_match orbit_table "B")
                      orbit_table_object)).
  cbn. rewrite !elem_of_cons. right. left. reflexivity.
Defined.




